(** * distsqlpb: the wire data model of DistSQL (pkg/sql/distsqlpb/data.go)

    A shallow embedding of the ordering codec, the expression envelope and
    the error envelope of [data.go], followed by the properties the
    specification states about them.

    Conventions.
    - Go's [int] is the 64-bit signed integer of the platforms CockroachDB
      builds for; [uint32] and [int32] are as in the language.  All of them
      are carried by [Z], and every conversion writes its wrap-around out.
    - A slice is a [list]; a slice that the code compares with [nil] is an
      [option (list _)], [None] being the nil slice.
    - A [panic] is a value of the error side of [result]; a function that
      cannot panic returns its value directly.
    - A pointer the code dereferences without a test is modelled by the
      value it points to; a pointer the code compares with [nil] is an
      [option]. *)

From Stdlib Require Import String ZArith List Bool Lia.
Import ListNotations.

Local Open Scope string_scope.
Local Open Scope Z_scope.

(** ** Machine integers *)

Module GoInt.

(** Width of Go's [int]. *)
Definition int_bits : Z := 64.

(** Reduction of an integer to [w] unsigned bits. *)
Definition wrap_unsigned (w x : Z) : Z := x mod 2 ^ w.

(** Reduction of an integer to [w] bits in two's complement. *)
Definition wrap_signed (w x : Z) : Z :=
  (x + 2 ^ (w - 1)) mod 2 ^ w - 2 ^ (w - 1).

(** The conversion [uint32(x)]. *)
Definition to_uint32 (x : Z) : Z := wrap_unsigned 32 x.

(** The conversion [int(x)]. *)
Definition to_int (x : Z) : Z := wrap_signed int_bits x.

(** The values of type [uint32]. *)
Definition is_uint32 (x : Z) : Prop := 0 <= x < 2 ^ 32.

(** The values of type [int]. *)
Definition is_int (x : Z) : Prop := - 2 ^ (int_bits - 1) <= x < 2 ^ (int_bits - 1).

End GoInt.

(** ** Panics *)

(** The fatal conditions of [data.go]: the two calls of [panic] in the
    functions below, and the run-time panic of an index expression. *)
Inductive panic : Type :=
| ColumnNotAvailable (col : Z)
    (* panic(fmt.Sprintf("column %d in sort ordering not available", c.ColIdx)) *)
| BadErrorDetail
    (* panic(fmt.Sprintf("bad error detail: %+v", t)) *)
| IndexOutOfRange (idx : Z) (len : nat).
    (* runtime error: index out of range *)

Inductive result (A : Type) : Type :=
| Ok (a : A)
| Panic (p : panic).

Arguments Ok {A} a.
Arguments Panic {A} p.

Definition bind {A B : Type} (r : result A) (k : A -> result B) : result B :=
  match r with
  | Ok a => k a
  | Panic p => Panic p
  end.

Notation "x <- r ;; k" := (bind r (fun x => k))
  (at level 61, r at next level, right associativity).

(** A [range] loop whose body may panic: the elements are visited in
    order and the first panic ends the loop. *)
Fixpoint for_range {A B : Type} (body : A -> result B) (s : list A) : result (list B) :=
  match s with
  | [] => Ok []
  | a :: s' =>
      b <- body a ;;
      bs <- for_range body s' ;;
      Ok (b :: bs)
  end.

(** The index expression [s[i]] on a slice of [int]. *)
Definition index (s : list Z) (i : Z) : result Z :=
  if (0 <=? i) && (i <? Z.of_nat (length s)) then
    match nth_error s (Z.to_nat i) with
    | Some v => Ok v
    | None => Panic (IndexOutOfRange i (length s))
    end
  else Panic (IndexOutOfRange i (length s)).

(** ** Collaborating packages *)

Module encoding.

(** Modelled from the spec: the declaration of [encoding.Direction] is in
    pkg/util/encoding; the data model gives the internal direction the
    two values Ascending and Descending. *)
Inductive Direction : Type :=
| Ascending
| Descending.

Definition Direction_eqb (a b : Direction) : bool :=
  match a, b with
  | Ascending, Ascending => true
  | Descending, Descending => true
  | _, _ => false
  end.

End encoding.

Module sqlbase.

(** Modelled from the spec: the declaration of [sqlbase.ColumnOrderInfo]
    is in pkg/sql/sqlbase; an internal column is a column index, of type
    [int] in [data.go], and a direction.  The fields are named as
    [data.go] reads them. *)
Record ColumnOrderInfo : Type := {
  ColIdx : Z;
  Direction : encoding.Direction
}.

(** [sqlbase.ColumnOrdering], the slice of [ColumnOrderInfo] that
    [data.go] ranges over and makes. *)
Definition ColumnOrdering : Type := list ColumnOrderInfo.

End sqlbase.

(** ** The ordering specification of data.proto *)

(** Modelled from the spec: the generated declarations of data.proto are
    not in [data.go]; the wire direction is an enumeration with ASC = 0
    and DESC = 1, open to other values of its [int32]. *)
Definition Ordering_Column_ASC : Z := 0.

(** Modelled from the spec: the other declared value of the wire
    direction, DESC = 1. *)
Definition Ordering_Column_DESC : Z := 1.

(** Modelled from the spec: the generated declaration of [Ordering_Column]
    is not in [data.go]; a wire column is a [uint32] column index and a
    direction of the enumeration above. *)
Record Ordering_Column : Type := {
  ColIdx : Z;
  Direction : Z
}.

(** Modelled from the spec: the generated declaration of [Ordering] is
    not in [data.go]; an ordering specification is the ordered list of its
    columns. *)
Record Ordering : Type := {
  Columns : list Ordering_Column
}.

(** The orderings whose column indices are values of [uint32]. *)
Definition wf_Ordering (o : Ordering) : Prop :=
  Forall (fun c => GoInt.is_uint32 (ColIdx c)) (Columns o).

(** ** The ordering codec *)

(** [ConvertToColumnOrdering], data.go lines 29-40. *)
Definition ConvertToColumnOrdering (specOrdering : Ordering) : sqlbase.ColumnOrdering :=
  map (fun c =>
         {| sqlbase.ColIdx := GoInt.to_int (ColIdx c);
            sqlbase.Direction :=
              if Direction c =? Ordering_Column_ASC
              then encoding.Ascending
              else encoding.Descending |})
      (Columns specOrdering).

(** The body of the loop of [ConvertToMappedSpecOrdering], data.go lines
    57-69, for the column [c]. *)
Definition mappedColumn (planToStreamColMap : option (list Z))
    (c : sqlbase.ColumnOrderInfo) : result Ordering_Column :=
  colIdx <-
    match planToStreamColMap with
    | Some m =>
        colIdx <- index m (sqlbase.ColIdx c) ;;
        if colIdx =? -1
        then Panic (ColumnNotAvailable (sqlbase.ColIdx c))
        else Ok colIdx
    | None => Ok (sqlbase.ColIdx c)
    end ;;
  Ok {| ColIdx := GoInt.to_uint32 colIdx;
        Direction :=
          if encoding.Direction_eqb (sqlbase.Direction c) encoding.Ascending
          then Ordering_Column_ASC
          else Ordering_Column_DESC |}.

(** [ConvertToMappedSpecOrdering], data.go lines 51-72. *)
Definition ConvertToMappedSpecOrdering (columnOrdering : sqlbase.ColumnOrdering)
    (planToStreamColMap : option (list Z)) : result Ordering :=
  cols <- for_range (mappedColumn planToStreamColMap) columnOrdering ;;
  Ok {| Columns := cols |}.

(** [ConvertToSpecOrdering], data.go lines 44-46. *)
Definition ConvertToSpecOrdering (columnOrdering : sqlbase.ColumnOrdering) : result Ordering :=
  ConvertToMappedSpecOrdering columnOrdering None.

(** ** The expression envelope *)

Module tree.

(** What [data.go] uses of package [tree]: typed expressions, the flags of
    a formatting context, and the text a node is formatted to under given
    flags. *)
Class Pkg : Type := {
  TypedExpr : Type;
  FmtFlags : Type;
  FmtCheckEquivalence : FmtFlags;
  Format : FmtFlags -> TypedExpr -> string
}.

(** Modelled from the spec: [tree.FmtCtx] and its three operations below
    are in pkg/sql/sem/tree; a formatting context is made with flags,
    collects the text of the nodes formatted through it, and gives that
    text back when closed. *)
Record FmtCtx {P : Pkg} : Type := {
  flags : FmtFlags;
  buf : string
}.

(** Modelled from the spec: [tree.NewFmtCtx], a context of the given flags
    with nothing written yet. *)
Definition NewFmtCtx {P : Pkg} (f : FmtFlags) : FmtCtx :=
  {| flags := f; buf := EmptyString |}.

(** Modelled from the spec: the method [FormatNode], which writes the
    text of a node under the flags of the context. *)
Definition FormatNode {P : Pkg} (ctx : FmtCtx) (n : TypedExpr) : FmtCtx :=
  {| flags := flags ctx; buf := buf ctx ++ Format (flags ctx) n |}.

(** Modelled from the spec: the method [CloseAndGetString], which gives
    the text written. *)
Definition CloseAndGetString {P : Pkg} (ctx : FmtCtx) : string := buf ctx.

End tree.

(** [Expression], data.go lines 96-108.  [LocalExpr] is an interface value:
    [None] is nil. *)
Record Expression {P : tree.Pkg} : Type := {
  Version : string;
  Expr : string;
  LocalExpr : option tree.TypedExpr
}.

(** The method [Empty] of [*Expression], data.go lines 111-113. *)
Definition Expression_Empty {P : tree.Pkg} (e : Expression) : bool :=
  (Expr e =? EmptyString)%string &&
  match LocalExpr e with
  | None => true
  | Some _ => false
  end.

(** The method [String] of [Expression], data.go lines 116-126. *)
Definition Expression_String {P : tree.Pkg} (e : Expression) : string :=
  match LocalExpr e with
  | Some localExpr =>
      let ctx := tree.NewFmtCtx tree.FmtCheckEquivalence in
      let ctx := tree.FormatNode ctx localExpr in
      tree.CloseAndGetString ctx
  | None =>
      if negb (Expr e =? EmptyString)%string
      then Expr e
      else "none"
  end.

(** ** The error envelope *)

Module pgerror.

(** Modelled from the spec: the declaration of [pgerror.Error] is in
    pkg/sql/pgwire/pgerror; a generic database error carries a stable
    error code and a human-readable message. *)
Record Error : Type := {
  Code : string;
  Message : string
}.

(** Modelled from the spec: [pgerror.NewError] is in
    pkg/sql/pgwire/pgerror; it builds the database error of a code and a
    message. *)
Definition NewError (code msg : string) : Error :=
  {| Code := code; Message := msg |}.

End pgerror.

(** The dynamic types behind the interfaces of the error envelope that are
    declared outside [data.go]. *)
Class ErrorKinds : Type := {
  (** the payload of a [*roachpb.UnhandledRetryableError] *)
  UnhandledRetryableError : Type;
  (** the errors of every other dynamic type *)
  OtherError : Type;
  (** the implementations of [isError_Detail] other than [*Error_PGError]
      and [*Error_RetryableTxnError] *)
  OtherDetail : Type
}.

(** A non-nil value of the interface [error], by its dynamic type. *)
Inductive error {K : ErrorKinds} : Type :=
| ptr_pgerror_Error (e : pgerror.Error)
| ptr_UnhandledRetryableError (e : UnhandledRetryableError)
| other_error (e : OtherError).

(** The type assertion of [err] to [*roachpb.UnhandledRetryableError]. *)
Definition as_UnhandledRetryableError {K : ErrorKinds} (err : error)
  : option UnhandledRetryableError :=
  match err with
  | ptr_UnhandledRetryableError retryErr => Some retryErr
  | _ => None
  end.

(** What [data.go] uses of the error taxonomy: the method [Error()] of an
    error, [pgerror.GetPGCause] and the constant
    [pgerror.CodeInternalError]. *)
Class ErrorTaxonomy {K : ErrorKinds} : Type := {
  Error_method : error -> string;
  GetPGCause : error -> option pgerror.Error;
  CodeInternalError : string
}.

(** Modelled from the spec: the generated declarations of the envelope
    are not in [data.go]; the detail is a tagged union of a generic
    database error and a retryable-transaction error.  This is the value
    of the field [Detail] when it is not nil, by its dynamic type; the
    payloads [PGError] and [RetryableTxnError] are pointers, taken not to
    be nil. *)
Inductive isError_Detail {K : ErrorKinds} : Type :=
| Error_PGError (PGError : pgerror.Error)
| Error_RetryableTxnError (RetryableTxnError : UnhandledRetryableError)
| Error_OtherDetail (d : OtherDetail).

(** Modelled from the spec: the generated declaration of [Error] is not
    in [data.go]; an envelope holds its detail.  [*Error] is
    [option Error]. *)
Record Error {K : ErrorKinds} : Type := {
  Detail : option isError_Detail
}.

(** [NewError], data.go lines 139-154. *)
Definition NewError {K : ErrorKinds} {T : ErrorTaxonomy} (err : error) : option Error :=
  match GetPGCause err with
  | Some pgErr => Some {| Detail := Some (Error_PGError pgErr) |}
  | None =>
      match as_UnhandledRetryableError err with
      | Some retryErr =>
          Some {| Detail := Some (Error_RetryableTxnError retryErr) |}
      | None =>
          Some {| Detail :=
                    Some (Error_PGError
                            (pgerror.NewError CodeInternalError (Error_method err))) |}
      end
  end.

(** The method [ErrorDetail] of [*Error], data.go lines 157-169.  The
    result is an interface value: [None] is nil. *)
Definition ErrorDetail {K : ErrorKinds} (e : option Error) : result (option error) :=
  match e with
  | None => Ok None
  | Some e' =>
      match Detail e' with
      | Some (Error_PGError t) => Ok (Some (ptr_pgerror_Error t))
      | Some (Error_RetryableTxnError t) => Ok (Some (ptr_UnhandledRetryableError t))
      | _ => Panic BadErrorDetail
      end
  end.

(** The method [String] of [*Error], data.go lines 129-134. *)
Definition Error_String {K : ErrorKinds} {T : ErrorTaxonomy} (e : option Error) : result string :=
  err <- ErrorDetail e ;;
  match err with
  | Some err' => Ok (Error_method err')
  | None => Ok "<nil>"
  end.

(** ** Relations between wire and internal columns *)

(** [c'] is the decoding of the wire column [c]: same column index, ASC
    as Ascending and every other direction value as Descending. *)
Definition decodes (c : Ordering_Column) (c' : sqlbase.ColumnOrderInfo) : Prop :=
  sqlbase.ColIdx c' = ColIdx c /\
  (Direction c = Ordering_Column_ASC -> sqlbase.Direction c' = encoding.Ascending) /\
  (Direction c <> Ordering_Column_ASC -> sqlbase.Direction c' = encoding.Descending).

(** [c'] is the column [c] moved by the remap [m]: its index is [m] at the
    index of [c], its direction is that of [c]. *)
Definition remapped (m : list Z) (c c' : sqlbase.ColumnOrderInfo) : Prop :=
  index m (sqlbase.ColIdx c) = Ok (sqlbase.ColIdx c') /\
  sqlbase.Direction c' = sqlbase.Direction c.

(** The wire column [w] carries the remapped value of [c] reduced modulo
    2^32. *)
Definition wraps (m : list Z) (c : sqlbase.ColumnOrderInfo) (w : Ordering_Column) : Prop :=
  exists v, index m (sqlbase.ColIdx c) = Ok v /\ ColIdx w = v mod 2 ^ 32.

(** The round trip of an internal ordering through the wire form. *)
Definition roundtrip (o : sqlbase.ColumnOrdering) : result sqlbase.ColumnOrdering :=
  s <- ConvertToSpecOrdering o ;;
  Ok (ConvertToColumnOrdering s).

(** The round trip through the wire form with a remap. *)
Definition roundtrip_mapped (o : sqlbase.ColumnOrdering) (m : option (list Z))
  : result sqlbase.ColumnOrdering :=
  s <- ConvertToMappedSpecOrdering o m ;;
  Ok (ConvertToColumnOrdering s).

(** ** A concrete world of collaborators

    One instance of the interfaces above, on which the properties below
    are evaluated. *)

Module Sample.

(** A retryable error: its message and, when it wraps a database error,
    that cause. *)
Record Retryable : Type := {
  msg : string;
  cause : option pgerror.Error
}.

#[export] Instance kinds : ErrorKinds := {|
  UnhandledRetryableError := Retryable;
  OtherError := string;
  OtherDetail := unit
|}.

#[export] Instance taxonomy : ErrorTaxonomy := {|
  Error_method := fun err =>
    match err with
    | ptr_pgerror_Error e => pgerror.Message e
    | ptr_UnhandledRetryableError e => msg e
    | other_error e => e
    end;
  GetPGCause := fun err =>
    match err with
    | ptr_pgerror_Error e => Some e
    | ptr_UnhandledRetryableError e => cause e
    | other_error _ => None
    end;
  (* the SQLSTATE of internal_error *)
  CodeInternalError := "XX000"
|}.

(** Typed expressions that are their own text under any flags. *)
#[export] Instance exprs : tree.Pkg := {|
  tree.TypedExpr := string;
  tree.FmtFlags := unit;
  tree.FmtCheckEquivalence := tt;
  tree.Format := fun _ e => e
|}.

Definition col (i : Z) (d : encoding.Direction) : sqlbase.ColumnOrderInfo :=
  {| sqlbase.ColIdx := i; sqlbase.Direction := d |}.

Definition wire (i : Z) (d : Z) : Ordering_Column :=
  {| ColIdx := i; Direction := d |}.

(** A column index that does not fit the 32 bits of the wire form. *)
Definition wide : sqlbase.ColumnOrdering := [col 4294967296 encoding.Ascending].

(** Scenario 1 of the specification. *)
Definition second_desc : sqlbase.ColumnOrdering := [col 2 encoding.Descending].

Definition two_keys : sqlbase.ColumnOrdering :=
  [col 1 encoding.Descending; col 0 encoding.Ascending].

Definition first_asc : sqlbase.ColumnOrdering := [col 0 encoding.Ascending].

Definition spec_two : Ordering :=
  {| Columns := [wire 0 Ordering_Column_ASC; wire 4294967295 7] |}.

(** A remap with a negative entry other than -1. *)
Definition remap_neg : list Z := [-2].

(** A remap defined on the columns 0 and 1. *)
Definition remap_two : list Z := [5; 3].

(** A remap in which column 1 is not available. *)
Definition remap_missing : list Z := [3; -1].

(** An expression with both forms set, one with the textual form only,
    one with neither. *)
Definition both_forms : Expression :=
  {| Version := EmptyString; Expr := "@1 + 1"; LocalExpr := Some "@1 + 1:::INT" |}.

Definition textual : Expression :=
  {| Version := EmptyString; Expr := "@1 + 1"; LocalExpr := None |}.

Definition neither : Expression :=
  {| Version := EmptyString; Expr := EmptyString; LocalExpr := None |}.

Definition boom : error := other_error "boom".

Definition dup_key : pgerror.Error :=
  {| pgerror.Code := "23505"; pgerror.Message := "duplicate key value" |}.

Definition retry_plain : Retryable :=
  {| msg := "restart transaction"; cause := None |}.

Definition retry_with_cause : Retryable :=
  {| msg := "restart transaction"; cause := Some dup_key |}.

Definition retry_err : error := ptr_UnhandledRetryableError retry_plain.

(** An error of the retryable type that also has a database-error cause. *)
Definition retry_both : error := ptr_UnhandledRetryableError retry_with_cause.

Definition pg_envelope : option Error :=
  Some {| Detail := Some (Error_PGError dup_key) |}.

Definition retry_envelope : option Error :=
  Some {| Detail := Some (Error_RetryableTxnError retry_plain) |}.

(** A non-nil envelope whose [Detail] is nil. *)
Definition nil_detail : option Error := Some {| Detail := None |}.

(** A non-nil envelope whose [Detail] is of a kind the switch does not
    list. *)
Definition foreign_detail : option Error :=
  Some {| Detail := Some (Error_OtherDetail tt) |}.

End Sample.

(** ** Further relations of the ordering codec *)

(** The index [i] is within the bounds of the slice [m]. *)
Definition in_bounds (m : list Z) (i : Z) : Prop :=
  0 <= i < Z.of_nat (length m).

(** The wire orderings that the codec itself emits: every column index a
    value of [uint32], every direction ASC or DESC. *)
Definition canonical_Ordering (s : Ordering) : Prop :=
  Forall (fun w =>
            GoInt.is_uint32 (ColIdx w) /\
            (Direction w = Ordering_Column_ASC \/ Direction w = Ordering_Column_DESC))
         (Columns s).

(** [w] is the wire column of [c] without a remap: the index of [c]
    modulo 2^32, ASC for Ascending and DESC for Descending. *)
Definition encodes (c : sqlbase.ColumnOrderInfo) (w : Ordering_Column) : Prop :=
  ColIdx w = sqlbase.ColIdx c mod 2 ^ 32 /\
  (sqlbase.Direction c = encoding.Ascending -> Direction w = Ordering_Column_ASC) /\
  (sqlbase.Direction c = encoding.Descending -> Direction w = Ordering_Column_DESC).

(** The round trip of a wire ordering through the internal form. *)
Definition roundtrip_wire (s : Ordering) : result Ordering :=
  ConvertToSpecOrdering (ConvertToColumnOrdering s).

(** Further sample inputs. *)
Module Cases.

(** A column that a nil remap lets through although its index is -1. *)
Definition minus_one : sqlbase.ColumnOrdering := [Sample.col (-1) encoding.Ascending].

(** Three sort keys, the second of which is outside [Sample.remap_missing]
    and the third not available in it. *)
Definition three_keys : sqlbase.ColumnOrdering :=
  [Sample.col 0 encoding.Ascending; Sample.col 7 encoding.Descending;
   Sample.col 1 encoding.Ascending].

(** The identity remap on three columns. *)
Definition remap_id : list Z := [0; 1; 2].

(** A canonical wire ordering. *)
Definition spec_canonical : Ordering :=
  {| Columns := [Sample.wire 3 Ordering_Column_DESC; Sample.wire 5 Ordering_Column_ASC] |}.

End Cases.

(** * Properties *)

(** ** Machine integers *)

Module GoIntFacts.
Import GoInt.

Lemma to_uint32_range (x : Z) : is_uint32 (to_uint32 x).
Proof.
  unfold is_uint32, to_uint32, wrap_unsigned.
  apply Z.mod_pos_bound. lia.
Qed.

Lemma to_uint32_small (x : Z) : is_uint32 x -> to_uint32 x = x.
Proof.
  unfold is_uint32, to_uint32, wrap_unsigned. intros Hx.
  apply Z.mod_small. exact Hx.
Qed.

Lemma to_int_small (x : Z) : is_int x -> to_int x = x.
Proof.
  unfold is_int, to_int, wrap_signed, int_bits. intros Hx.
  rewrite Z.mod_small; lia.
Qed.

Lemma uint32_is_int (x : Z) : is_uint32 x -> is_int x.
Proof. unfold is_uint32, is_int, int_bits. lia. Qed.

(** A [uint32] survives the conversion to [int]. *)
Lemma to_int_of_uint32 (x : Z) : is_uint32 x -> to_int x = x.
Proof. intros Hx. apply to_int_small, uint32_is_int, Hx. Qed.

(** [uint32(x)] is the identity only on the values of [uint32]. *)
Lemma to_uint32_fixed (x : Z) : to_uint32 x = x -> is_uint32 x.
Proof. intros Hx. rewrite <- Hx. apply to_uint32_range. Qed.

End GoIntFacts.

(** ** Loops and index expressions *)

Lemma for_range_Ok {A B : Type} (body : A -> result B) (s : list A) :
  (forall a, In a s -> exists b, body a = Ok b) ->
  exists bs, for_range body s = Ok bs /\ Forall2 (fun a b => body a = Ok b) s bs.
Proof.
  induction s as [| a s IH]; intros Hall.
  - exists []. split; [reflexivity | constructor].
  - destruct (Hall a (or_introl eq_refl)) as [b Hb].
    destruct IH as [bs [Hbs HF]].
    { intros a' Ha'. apply Hall. right. exact Ha'. }
    exists (b :: bs). simpl. rewrite Hb. simpl. rewrite Hbs. simpl.
    split; [reflexivity | constructor; assumption].
Qed.

Lemma for_range_Panic {A B : Type} (body : A -> result B) (s : list A) (p : panic) :
  for_range body s = Panic p -> exists a, In a s /\ body a = Panic p.
Proof.
  induction s as [| a s IH]; simpl; intros H.
  - discriminate H.
  - destruct (body a) as [b | q] eqn:Hb; simpl in H.
    + destruct (for_range body s) as [bs | q] eqn:Hbs; simpl in H.
      * discriminate H.
      * injection H as ->.
        destruct (IH eq_refl) as [a' [Hin Ha']].
        exists a'. split; [right; exact Hin | exact Ha'].
    + injection H as ->. exists a. split; [left; reflexivity | exact Hb].
Qed.

Lemma for_range_In_Panic {A B : Type} (body : A -> result B) (s : list A) :
  (exists a p, In a s /\ body a = Panic p) ->
  exists p, for_range body s = Panic p.
Proof.
  induction s as [| a s IH]; intros [a' [p [Hin Ha']]].
  - destruct Hin.
  - simpl. destruct (body a) as [b | q] eqn:Hb; simpl.
    + destruct Hin as [-> | Hin]; [congruence |].
      destruct IH as [q Hq]; [exists a', p; split; assumption |].
      rewrite Hq. simpl. exists q. reflexivity.
    + exists q. reflexivity.
Qed.

(** The column emitted for [c] when its remapped value is [v], not -1. *)
Lemma mappedColumn_remapped (m : list Z) (c : sqlbase.ColumnOrderInfo) (v : Z) :
  index m (sqlbase.ColIdx c) = Ok v -> v <> -1 ->
  mappedColumn (Some m) c =
    Ok {| ColIdx := GoInt.to_uint32 v;
          Direction :=
            if encoding.Direction_eqb (sqlbase.Direction c) encoding.Ascending
            then Ordering_Column_ASC
            else Ordering_Column_DESC |}.
Proof.
  intros Hv Hne. unfold mappedColumn. rewrite Hv. simpl.
  destruct (Z.eqb_spec v (-1)) as [E | _]; [contradiction | reflexivity].
Qed.

(** The only way for a column to raise [ColumnNotAvailable]. *)
Lemma mappedColumn_not_available (m : option (list Z)) (c : sqlbase.ColumnOrderInfo) (k : Z) :
  mappedColumn m c = Panic (ColumnNotAvailable k) ->
  exists m', m = Some m' /\ sqlbase.ColIdx c = k /\ index m' k = Ok (-1).
Proof.
  unfold mappedColumn. destruct m as [m' |]; simpl; [| discriminate].
  destruct (index m' (sqlbase.ColIdx c)) as [v | q] eqn:Hv; simpl.
  - destruct (Z.eqb_spec v (-1)) as [-> | _]; simpl; [| discriminate].
    intros H. injection H as <-. exists m'. repeat split. exact Hv.
  - intros H. injection H as ->.
    unfold index in Hv.
    destruct ((0 <=? sqlbase.ColIdx c) && (sqlbase.ColIdx c <? Z.of_nat (length m')));
      [destruct (nth_error m' (Z.to_nat (sqlbase.ColIdx c))) |]; discriminate Hv.
Qed.

(** Decoding the direction that [mappedColumn] emits gives the direction
    back. *)
Lemma direction_roundtrip (d : encoding.Direction) :
  (if (if encoding.Direction_eqb d encoding.Ascending
       then Ordering_Column_ASC else Ordering_Column_DESC) =? Ordering_Column_ASC
   then encoding.Ascending else encoding.Descending) = d.
Proof. destruct d; reflexivity. Qed.

(** ** The ordering codec *)

(** C8. [ConvertToColumnOrdering] has no failure mode: on every ordering
    specification (column indices being values of [uint32]) it yields one
    internal column per wire column, in the same order, with the column
    index copied unchanged, the direction ASC decoded as Ascending and
    every other direction value decoded as Descending. *)
Theorem ConvertToColumnOrdering_total (specOrdering : Ordering) :
  wf_Ordering specOrdering ->
  length (ConvertToColumnOrdering specOrdering) = length (Columns specOrdering) /\
  Forall2 decodes (Columns specOrdering) (ConvertToColumnOrdering specOrdering).
Proof.
  unfold wf_Ordering, ConvertToColumnOrdering.
  destruct specOrdering as [cols]. simpl.
  intros Hwf. split; [apply length_map |].
  induction Hwf as [| c cols Hc _ IH]; simpl; constructor; [| exact IH].
  unfold decodes. simpl. split; [apply GoIntFacts.to_int_of_uint32, Hc |].
  destruct (Z.eqb_spec (Direction c) Ordering_Column_ASC) as [E | E];
    split; intros H; try reflexivity; contradiction.
Qed.

(** The theorem on an ascending column 0 followed by a column of the
    unrecognised direction 7. *)
Lemma ConvertToColumnOrdering_total_witness :
  wf_Ordering Sample.spec_two /\
  length (ConvertToColumnOrdering Sample.spec_two) = length (Columns Sample.spec_two) /\
  Forall2 decodes (Columns Sample.spec_two) (ConvertToColumnOrdering Sample.spec_two).
Proof.
  assert (Hwf : wf_Ordering Sample.spec_two).
  { repeat constructor; simpl; lia. }
  split; [exact Hwf | exact (ConvertToColumnOrdering_total Sample.spec_two Hwf)].
Defined.

(** Scenario 2 of the specification. *)
Example ConvertToColumnOrdering_asc :
  ConvertToColumnOrdering {| Columns := [Sample.wire 0 Ordering_Column_ASC] |}
  = [Sample.col 0 encoding.Ascending].
Proof. reflexivity. Qed.

(** An unrecognised direction decodes as Descending. *)
Example ConvertToColumnOrdering_unknown_direction :
  ConvertToColumnOrdering {| Columns := [Sample.wire 4294967295 7] |}
  = [Sample.col 4294967295 encoding.Descending].
Proof. reflexivity. Qed.

(** Without a remap no column can fail: the wire columns are the internal
    ones with the index reduced to 32 bits. *)
Lemma for_range_unmapped (o : sqlbase.ColumnOrdering) :
  for_range (mappedColumn None) o =
  Ok (map (fun c =>
             {| ColIdx := GoInt.to_uint32 (sqlbase.ColIdx c);
                Direction :=
                  if encoding.Direction_eqb (sqlbase.Direction c) encoding.Ascending
                  then Ordering_Column_ASC
                  else Ordering_Column_DESC |}) o).
Proof.
  induction o as [| c o IH]; simpl; [reflexivity |].
  rewrite IH. reflexivity.
Qed.

(** With a remap whose values at the columns of [o] are defined and not
    -1, every column is emitted with its remapped value reduced to 32
    bits. *)
Lemma mapped_success (o : sqlbase.ColumnOrdering) (m : list Z) :
  (forall c, In c o -> exists v, index m (sqlbase.ColIdx c) = Ok v /\ v <> -1) ->
  exists cols,
    ConvertToMappedSpecOrdering o (Some m) = Ok {| Columns := cols |} /\
    Forall2
      (fun c w =>
         exists v, index m (sqlbase.ColIdx c) = Ok v /\
           w = {| ColIdx := GoInt.to_uint32 v;
                  Direction :=
                    if encoding.Direction_eqb (sqlbase.Direction c) encoding.Ascending
                    then Ordering_Column_ASC
                    else Ordering_Column_DESC |})
      o cols.
Proof.
  intros Hall.
  destruct (for_range_Ok (mappedColumn (Some m)) o) as [cols [Hcols HF]].
  { intros c Hc. destruct (Hall c Hc) as [v [Hv Hne]].
    rewrite (mappedColumn_remapped m c v Hv Hne). eexists. reflexivity. }
  exists cols. unfold ConvertToMappedSpecOrdering. rewrite Hcols. simpl.
  split; [reflexivity |].
  clear Hcols. induction HF as [| c w o cols Hcw HF IH]; constructor.
  - destruct (Hall c (or_introl eq_refl)) as [v [Hv Hne]].
    rewrite (mappedColumn_remapped m c v Hv Hne) in Hcw.
    injection Hcw as <-. exists v. split; [exact Hv | reflexivity].
  - apply IH. intros c' Hc'. apply Hall. right. exact Hc'.
Qed.

(** C3, as amended. For every internal ordering whose column indices are
    values of [uint32] (between 0 and 2^32 - 1), converting to the wire
    form and back gives the ordering itself. *)
Theorem roundtrip_identity (o : sqlbase.ColumnOrdering) :
  Forall (fun c => GoInt.is_uint32 (sqlbase.ColIdx c)) o ->
  roundtrip o = Ok o.
Proof.
  intros Hwf. unfold roundtrip, ConvertToSpecOrdering, ConvertToMappedSpecOrdering.
  rewrite for_range_unmapped. simpl. f_equal.
  unfold ConvertToColumnOrdering. simpl. rewrite map_map.
  rewrite <- (map_id o) at 2. apply map_ext_in.
  intros [i d] Hin. simpl.
  assert (Hi : GoInt.is_uint32 i).
  { rewrite Forall_forall in Hwf. exact (Hwf _ Hin). }
  rewrite (GoIntFacts.to_uint32_small i Hi), (GoIntFacts.to_int_of_uint32 i Hi).
  rewrite direction_roundtrip. reflexivity.
Qed.

(** The round trip on two sort keys. *)
Lemma roundtrip_identity_witness :
  Forall (fun c => GoInt.is_uint32 (sqlbase.ColIdx c)) Sample.two_keys /\
  roundtrip Sample.two_keys = Ok Sample.two_keys.
Proof.
  assert (Hwf : Forall (fun c => GoInt.is_uint32 (sqlbase.ColIdx c)) Sample.two_keys).
  { repeat constructor; simpl; lia. }
  split; [exact Hwf | exact (roundtrip_identity Sample.two_keys Hwf)].
Defined.

(** X18. The side condition of [roundtrip_identity] cannot be dropped: an
    ordering that survives the round trip has all its column indices in
    [uint32]. *)
Lemma roundtrip_identity_only_uint32 (o : sqlbase.ColumnOrdering) :
  roundtrip o = Ok o ->
  Forall (fun c => GoInt.is_uint32 (sqlbase.ColIdx c)) o.
Proof.
  unfold roundtrip, ConvertToSpecOrdering, ConvertToMappedSpecOrdering.
  rewrite for_range_unmapped. simpl.
  unfold ConvertToColumnOrdering. simpl. rewrite map_map.
  intros H. injection H as H.
  induction o as [| [i d] o IH]; constructor.
  - simpl in *. injection H as Hi _ _.
    rewrite GoIntFacts.to_int_of_uint32 in Hi by apply GoIntFacts.to_uint32_range.
    apply GoIntFacts.to_uint32_fixed, Hi.
  - apply IH. simpl in H. injection H as _ _ H. exact H.
Qed.

(** C3, as stated, fails: the column index 2^32 is cut to 32 bits on the
    way to the wire form and comes back as 0. *)
Lemma roundtrip_wide_counterexample :
  ConvertToSpecOrdering Sample.wide
    = Ok {| Columns := [Sample.wire 0 Ordering_Column_ASC] |} /\
  roundtrip Sample.wide = Ok [Sample.col 0 encoding.Ascending] /\
  roundtrip Sample.wide <> Ok Sample.wide.
Proof.
  split; [reflexivity |]. split; [reflexivity |].
  intros H. discriminate H.
Qed.

(** Scenario 1 of the specification. *)
Example ConvertToSpecOrdering_desc :
  ConvertToSpecOrdering Sample.second_desc
  = Ok {| Columns := [Sample.wire 2 Ordering_Column_DESC] |}.
Proof. reflexivity. Qed.

(** C4, as amended. For a remap [m] whose value at every column of [o] is
    defined and a value of [uint32], converting [o] through [m] to the wire
    form and back gives the columns of [o] with [m] applied to their
    indices and their directions kept; if [m] is -1 at some column of [o]
    the conversion panics; and without a remap the conversion is
    [ConvertToSpecOrdering]. *)
Theorem remap_correct (o : sqlbase.ColumnOrdering) (m : list Z) :
  ((forall c, In c o ->
      exists v, index m (sqlbase.ColIdx c) = Ok v /\ GoInt.is_uint32 v) ->
   exists o', roundtrip_mapped o (Some m) = Ok o' /\ Forall2 (remapped m) o o') /\
  ((exists c, In c o /\ index m (sqlbase.ColIdx c) = Ok (-1)) ->
   exists p, ConvertToMappedSpecOrdering o (Some m) = Panic p) /\
  ConvertToMappedSpecOrdering o None = ConvertToSpecOrdering o.
Proof.
  split; [| split; [| reflexivity]].
  - intros Hall.
    destruct (mapped_success o m) as [cols [Hcols HF]].
    { intros c Hc. destruct (Hall c Hc) as [v [Hv Hr]].
      exists v. split; [exact Hv |]. unfold GoInt.is_uint32 in Hr. lia. }
    unfold roundtrip_mapped. rewrite Hcols. simpl.
    eexists. split; [reflexivity |].
    unfold ConvertToColumnOrdering. simpl. clear Hcols.
    induction HF as [| c w o cols [v [Hv ->]] _ IH]; simpl; constructor.
    + destruct (Hall c (or_introl eq_refl)) as [v' [Hv' Hr]].
      assert (v' = v) as -> by congruence.
      unfold remapped. simpl.
      rewrite (GoIntFacts.to_uint32_small v Hr), (GoIntFacts.to_int_of_uint32 v Hr).
      split; [exact Hv | apply direction_roundtrip].
    + apply IH. intros c' Hc'. apply Hall. right. exact Hc'.
  - intros [c [Hc Hv]].
    destruct (for_range_In_Panic (mappedColumn (Some m)) o) as [p Hp].
    { exists c, (ColumnNotAvailable (sqlbase.ColIdx c)).
      split; [exact Hc |]. unfold mappedColumn. rewrite Hv. reflexivity. }
    exists p. unfold ConvertToMappedSpecOrdering. rewrite Hp. reflexivity.
Qed.

(** The theorem on two sort keys: through a remap defined on both, and
    through one in which the first key is not available. *)
Lemma remap_correct_witness :
  (forall c, In c Sample.two_keys ->
     exists v, index Sample.remap_two (sqlbase.ColIdx c) = Ok v /\ GoInt.is_uint32 v) /\
  (exists o', roundtrip_mapped Sample.two_keys (Some Sample.remap_two) = Ok o' /\
              Forall2 (remapped Sample.remap_two) Sample.two_keys o') /\
  (exists c, In c Sample.two_keys /\
             index Sample.remap_missing (sqlbase.ColIdx c) = Ok (-1)) /\
  (exists p, ConvertToMappedSpecOrdering Sample.two_keys (Some Sample.remap_missing) = Panic p).
Proof.
  assert (H1 : forall c, In c Sample.two_keys ->
     exists v, index Sample.remap_two (sqlbase.ColIdx c) = Ok v /\ GoInt.is_uint32 v).
  { intros c [<- | [<- | []]]; eexists; (split; [reflexivity |]);
      unfold GoInt.is_uint32; lia. }
  assert (H2 : exists c, In c Sample.two_keys /\
             index Sample.remap_missing (sqlbase.ColIdx c) = Ok (-1)).
  { exists (Sample.col 1 encoding.Descending). split; [left |]; reflexivity. }
  split; [exact H1 |].
  split; [exact (proj1 (remap_correct Sample.two_keys Sample.remap_two) H1) |].
  split; [exact H2 |].
  exact (proj1 (proj2 (remap_correct Sample.two_keys Sample.remap_missing)) H2).
Defined.

(** C4, as stated, fails: the remapped value -2 is defined and is not -1,
    yet the column comes back with the index 2^32 - 2. *)
Lemma remap_negative_counterexample :
  (forall c, In c Sample.first_asc ->
     exists v, index Sample.remap_neg (sqlbase.ColIdx c) = Ok v /\ v <> -1) /\
  roundtrip_mapped Sample.first_asc (Some Sample.remap_neg)
    = Ok [Sample.col 4294967294 encoding.Ascending] /\
  ~ Forall2 (remapped Sample.remap_neg) Sample.first_asc
      [Sample.col 4294967294 encoding.Ascending].
Proof.
  split; [| split; [reflexivity |]].
  - intros c [<- | []]. exists (-2). split; [reflexivity | discriminate].
  - intros H. inversion H as [| c c' o o' [Hidx _] _]; subst.
    discriminate Hidx.
Qed.

(** What the two sample remaps give. *)
Example remap_two_keys :
  roundtrip_mapped Sample.two_keys (Some Sample.remap_two)
  = Ok [Sample.col 3 encoding.Descending; Sample.col 5 encoding.Ascending].
Proof. reflexivity. Qed.

Example remap_missing_panics :
  ConvertToMappedSpecOrdering Sample.two_keys (Some Sample.remap_missing)
  = Panic (ColumnNotAvailable 1).
Proof. reflexivity. Qed.

(** An index outside the remap is the run-time panic, not the planner's. *)
Example remap_too_short_panics :
  ConvertToMappedSpecOrdering Sample.second_desc (Some Sample.remap_two)
  = Panic (IndexOutOfRange 2 2).
Proof. reflexivity. Qed.

(** C10. With a remap, [ColumnNotAvailable] is raised only for a column
    whose remapped value is exactly -1; a column whose remapped value is
    negative and not -1 is emitted, with that value reduced modulo 2^32 as
    its wire index; and when no column of the ordering has the remapped
    value -1 or an index outside the remap, the conversion succeeds with
    every wire index the remapped value modulo 2^32. *)
Theorem not_available_only_at_minus_one (o : sqlbase.ColumnOrdering) (m : list Z) :
  (forall k, ConvertToMappedSpecOrdering o (Some m) = Panic (ColumnNotAvailable k) ->
     exists c, In c o /\ sqlbase.ColIdx c = k /\ index m k = Ok (-1)) /\
  (forall c v, index m (sqlbase.ColIdx c) = Ok v -> v < 0 -> v <> -1 ->
     exists w, mappedColumn (Some m) c = Ok w /\ ColIdx w = v mod 2 ^ 32) /\
  ((forall c, In c o -> exists v, index m (sqlbase.ColIdx c) = Ok v /\ v <> -1) ->
   exists s, ConvertToMappedSpecOrdering o (Some m) = Ok s /\
             Forall2 (wraps m) o (Columns s)).
Proof.
  split; [| split].
  - intros k H. unfold ConvertToMappedSpecOrdering in H.
    destruct (for_range (mappedColumn (Some m)) o) as [cols | p] eqn:Hfr;
      simpl in H; [discriminate H |].
    injection H as ->.
    destruct (for_range_Panic _ _ _ Hfr) as [c [Hc Hp]].
    destruct (mappedColumn_not_available _ _ _ Hp) as [m' [Hm [Hk Hidx]]].
    injection Hm as <-. exists c. repeat split; assumption.
  - intros c v Hv _ Hne. rewrite (mappedColumn_remapped m c v Hv Hne).
    eexists. split; reflexivity.
  - intros Hall. destruct (mapped_success o m Hall) as [cols [Hcols HF]].
    exists {| Columns := cols |}. split; [exact Hcols |]. simpl.
    clear Hcols Hall.
    induction HF as [| c w o cols [v [Hv ->]] _ IH]; constructor.
    + exists v. split; [exact Hv | reflexivity].
    + exact IH.
Qed.

(** The theorem on the remapped value -2, emitted as 2^32 - 2. *)
Lemma not_available_only_at_minus_one_witness :
  (index Sample.remap_neg (sqlbase.ColIdx (Sample.col 0 encoding.Ascending)) = Ok (-2) /\
   -2 < 0 /\ -2 <> -1) /\
  (exists w, mappedColumn (Some Sample.remap_neg) (Sample.col 0 encoding.Ascending) = Ok w /\
             ColIdx w = (-2) mod 2 ^ 32) /\
  (forall c, In c Sample.first_asc ->
     exists v, index Sample.remap_neg (sqlbase.ColIdx c) = Ok v /\ v <> -1) /\
  (exists s, ConvertToMappedSpecOrdering Sample.first_asc (Some Sample.remap_neg) = Ok s /\
             Forall2 (wraps Sample.remap_neg) Sample.first_asc (Columns s)).
Proof.
  assert (H1 : index Sample.remap_neg (sqlbase.ColIdx (Sample.col 0 encoding.Ascending))
               = Ok (-2)) by reflexivity.
  assert (H2 : -2 < 0) by lia.
  assert (H3 : -2 <> -1) by discriminate.
  assert (H4 : forall c, In c Sample.first_asc ->
     exists v, index Sample.remap_neg (sqlbase.ColIdx c) = Ok v /\ v <> -1).
  { intros c [<- | []]. exists (-2). split; [reflexivity | discriminate]. }
  pose proof (not_available_only_at_minus_one Sample.first_asc Sample.remap_neg)
    as [_ [Hcol Hall]].
  split; [repeat split; assumption |].
  split; [exact (Hcol _ _ H1 H2 H3) |].
  split; [exact H4 | exact (Hall H4)].
Defined.

Example remap_negative_wraps :
  ConvertToMappedSpecOrdering Sample.first_asc (Some Sample.remap_neg)
  = Ok {| Columns := [Sample.wire 4294967294 Ordering_Column_ASC] |}.
Proof. reflexivity. Qed.

(** ** The expression envelope *)

Section ExpressionEnvelope.

Context {P : tree.Pkg}.

(** C9. [Empty] is true exactly when the textual form is the empty string
    and the local form is absent; an expression in which the local form is
    set, or the textual form is set to a non-empty string, is not empty. *)
Theorem Expression_Empty_iff (e : Expression) :
  (Expression_Empty e = true <-> Expr e = EmptyString /\ LocalExpr e = None) /\
  (forall l,
     Expression_Empty
       {| Version := Version e; Expr := Expr e; LocalExpr := Some l |} = false) /\
  (forall x, x <> EmptyString ->
     Expression_Empty
       {| Version := Version e; Expr := x; LocalExpr := LocalExpr e |} = false).
Proof.
  unfold Expression_Empty. split; [| split].
  - rewrite andb_true_iff, String.eqb_eq.
    destruct (LocalExpr e) as [l |]; intuition congruence.
  - intros l. simpl. apply andb_false_r.
  - intros x Hx. simpl.
    destruct (String.eqb_spec x EmptyString) as [E | _]; [contradiction | reflexivity].
Qed.

(** C7. [String] renders the local form whenever it is present, through a
    context of the flags [FmtCheckEquivalence] and whatever the textual
    form is; with the local form absent it returns the textual form when
    that is not empty, and the text [none] otherwise. *)
Theorem Expression_String_cases (e : Expression) :
  (forall l, LocalExpr e = Some l ->
     Expression_String e = tree.Format tree.FmtCheckEquivalence l /\
     forall x, Expression_String
                 {| Version := Version e; Expr := x; LocalExpr := Some l |}
               = Expression_String e) /\
  (LocalExpr e = None -> Expr e <> EmptyString -> Expression_String e = Expr e) /\
  (LocalExpr e = None -> Expr e = EmptyString -> Expression_String e = "none").
Proof.
  unfold Expression_String. split; [| split].
  - intros l ->. split; reflexivity.
  - intros -> Hx.
    destruct (String.eqb_spec (Expr e) EmptyString) as [E | _]; [contradiction | reflexivity].
  - intros -> ->. reflexivity.
Qed.

End ExpressionEnvelope.

(** The emptiness theorem on the sample expressions. *)
Lemma Expression_Empty_iff_witness :
  (Expr Sample.neither = EmptyString /\ LocalExpr Sample.neither = None) /\
  Expression_Empty Sample.neither = true /\
  "@1" <> EmptyString /\
  Expression_Empty
    {| Version := Version Sample.neither; Expr := "@1";
       LocalExpr := LocalExpr Sample.neither |} = false.
Proof.
  assert (H1 : Expr Sample.neither = EmptyString /\ LocalExpr Sample.neither = None)
    by (split; reflexivity).
  assert (H2 : "@1" <> EmptyString) by discriminate.
  pose proof (Expression_Empty_iff Sample.neither) as [Hiff [_ Hset]].
  split; [exact H1 |].
  split; [exact (proj2 Hiff H1) |].
  split; [exact H2 | exact (Hset "@1" H2)].
Defined.

(** The rendering theorem on the sample expressions. *)
Lemma Expression_String_cases_witness :
  (LocalExpr Sample.both_forms = Some "@1 + 1:::INT" /\
   Expression_String Sample.both_forms
     = tree.Format (Pkg := Sample.exprs) tree.FmtCheckEquivalence "@1 + 1:::INT") /\
  (LocalExpr Sample.textual = None /\ Expr Sample.textual <> EmptyString /\
   Expression_String Sample.textual = Expr Sample.textual) /\
  (LocalExpr Sample.neither = None /\ Expr Sample.neither = EmptyString /\
   Expression_String Sample.neither = "none").
Proof.
  assert (H1 : LocalExpr Sample.both_forms = Some "@1 + 1:::INT") by reflexivity.
  assert (H2 : LocalExpr Sample.textual = None) by reflexivity.
  assert (H3 : Expr Sample.textual <> EmptyString) by discriminate.
  assert (H4 : LocalExpr Sample.neither = None) by reflexivity.
  assert (H5 : Expr Sample.neither = EmptyString) by reflexivity.
  split; [split; [exact H1 |] | split; [split; [exact H2 | split; [exact H3 |]] |
          split; [exact H4 | split; [exact H5 |]]]].
  - exact (proj1 (proj1 (Expression_String_cases Sample.both_forms) _ H1)).
  - exact (proj1 (proj2 (Expression_String_cases Sample.textual)) H2 H3).
  - exact (proj2 (proj2 (Expression_String_cases Sample.neither)) H4 H5).
Defined.

(** Scenario 6 of the specification, and the precedence of the local
    form. *)
Example Expression_String_neither : Expression_String Sample.neither = "none".
Proof. reflexivity. Qed.

Example Expression_String_both : Expression_String Sample.both_forms = "@1 + 1:::INT".
Proof. reflexivity. Qed.

(** ** The error envelope *)

Section ErrorEnvelope.

Context {K : ErrorKinds} {T : ErrorTaxonomy}.

(** C5. [ErrorDetail] returns nil exactly for the nil envelope; on a
    detail of kind [Error_PGError] it returns the database error inside,
    on a detail of kind [Error_RetryableTxnError] the retryable error
    inside, and on every other detail, the nil [Detail] of a non-nil
    envelope included, it panics. *)
Theorem ErrorDetail_cases (e : option Error) :
  (ErrorDetail e = Ok None <-> e = None) /\
  (forall e' t, e = Some e' -> Detail e' = Some (Error_PGError t) ->
     ErrorDetail e = Ok (Some (ptr_pgerror_Error t))) /\
  (forall e' t, e = Some e' -> Detail e' = Some (Error_RetryableTxnError t) ->
     ErrorDetail e = Ok (Some (ptr_UnhandledRetryableError t))) /\
  (forall e', e = Some e' ->
     (forall t, Detail e' <> Some (Error_PGError t)) ->
     (forall t, Detail e' <> Some (Error_RetryableTxnError t)) ->
     ErrorDetail e = Panic BadErrorDetail) /\
  (forall e', e = Some e' -> Detail e' = None -> ErrorDetail e = Panic BadErrorDetail).
Proof.
  repeat split.
  - destruct e as [[[[t | t | d] |]] |]; simpl; intros H;
      try discriminate H; reflexivity.
  - intros ->. reflexivity.
  - intros e' t -> Hd. simpl. rewrite Hd. reflexivity.
  - intros e' t -> Hd. simpl. rewrite Hd. reflexivity.
  - intros e' -> Hpg Hretry. simpl.
    destruct (Detail e') as [[t | t | d] |]; try reflexivity.
    + elim (Hpg t). reflexivity.
    + elim (Hretry t). reflexivity.
  - intros e' -> Hd. simpl. rewrite Hd. reflexivity.
Qed.

(** C6. [String] returns the message of the detail when [ErrorDetail]
    returns one, and the text [<nil>] for the nil envelope. *)
Theorem Error_String_cases (e : option Error) :
  (forall err, ErrorDetail e = Ok (Some err) ->
     Error_String e = Ok (Error_method err)) /\
  (e = None -> Error_String e = Ok "<nil>").
Proof.
  unfold Error_String. split.
  - intros err ->. reflexivity.
  - intros ->. reflexivity.
Qed.

(** C1. [NewError] returns a non-nil envelope for every error, and
    [ErrorDetail] of that envelope returns a non-nil error of one of the
    two typed kinds; for an error with no database-error cause and not of
    the retryable type, the envelope holds the database error built from
    [CodeInternalError] and the message of the error. *)
Theorem NewError_total (err : error) :
  (exists e detail,
     NewError err = Some e /\
     ErrorDetail (NewError err) = Ok (Some detail) /\
     ((exists t, detail = ptr_pgerror_Error t) \/
      (exists t, detail = ptr_UnhandledRetryableError t))) /\
  (GetPGCause err = None -> as_UnhandledRetryableError err = None ->
   NewError err =
     Some {| Detail :=
               Some (Error_PGError
                       {| pgerror.Code := CodeInternalError;
                          pgerror.Message := Error_method err |}) |}).
Proof.
  unfold NewError. split.
  - destruct (GetPGCause err) as [pgErr |];
      [| destruct (as_UnhandledRetryableError err) as [retryErr |]];
      eexists; eexists; (split; [reflexivity |]); (split; [reflexivity |]);
      [left | right | left]; eexists; reflexivity.
  - intros -> ->. reflexivity.
Qed.

(** C2. [NewError] tests the database-error cause first: an error with
    such a cause is wrapped as [Error_PGError] with that very cause, which
    [ErrorDetail] gives back, also when the error is of the retryable
    type; the retryable type is looked at only when there is no such
    cause, and the internal error is built only when both tests fail. *)
Theorem NewError_priority (err : error) :
  (forall pgErr, GetPGCause err = Some pgErr ->
     NewError err = Some {| Detail := Some (Error_PGError pgErr) |} /\
     ErrorDetail (NewError err) = Ok (Some (ptr_pgerror_Error pgErr))) /\
  (forall pgErr retryErr,
     err = ptr_UnhandledRetryableError retryErr ->
     GetPGCause err = Some pgErr ->
     NewError err = Some {| Detail := Some (Error_PGError pgErr) |}) /\
  (forall retryErr,
     GetPGCause err = None ->
     as_UnhandledRetryableError err = Some retryErr ->
     NewError err = Some {| Detail := Some (Error_RetryableTxnError retryErr) |} /\
     ErrorDetail (NewError err) = Ok (Some (ptr_UnhandledRetryableError retryErr))) /\
  (GetPGCause err = None -> as_UnhandledRetryableError err = None ->
   NewError err =
     Some {| Detail :=
               Some (Error_PGError
                       (pgerror.NewError CodeInternalError (Error_method err))) |}).
Proof.
  unfold NewError. split; [| split; [| split]].
  - intros pgErr ->. split; reflexivity.
  - intros pgErr retryErr _ ->. reflexivity.
  - intros retryErr -> ->. split; reflexivity.
  - intros -> ->. reflexivity.
Qed.

End ErrorEnvelope.

(** From here on the interfaces are those of the sample world. *)
#[local] Existing Instance Sample.kinds.
#[local] Existing Instance Sample.taxonomy.

(** The cases of [ErrorDetail] on the sample envelopes. *)
Lemma ErrorDetail_cases_witness :
  ErrorDetail (K := Sample.kinds) None = Ok None /\
  ErrorDetail Sample.pg_envelope = Ok (Some (ptr_pgerror_Error Sample.dup_key)) /\
  ErrorDetail Sample.retry_envelope
    = Ok (Some (ptr_UnhandledRetryableError Sample.retry_plain)) /\
  ErrorDetail Sample.foreign_detail = Panic BadErrorDetail /\
  ErrorDetail Sample.nil_detail = Panic BadErrorDetail.
Proof.
  split; [| split; [| split; [| split]]].
  - exact (proj2 (proj1 (ErrorDetail_cases (K := Sample.kinds) None)) eq_refl).
  - pose proof (ErrorDetail_cases Sample.pg_envelope) as [_ [H _]].
    exact (H _ _ eq_refl eq_refl).
  - pose proof (ErrorDetail_cases Sample.retry_envelope) as [_ [_ [H _]]].
    exact (H _ _ eq_refl eq_refl).
  - pose proof (ErrorDetail_cases Sample.foreign_detail) as [_ [_ [_ [H _]]]].
    apply (H _ eq_refl); intros t; simpl; discriminate.
  - pose proof (ErrorDetail_cases Sample.nil_detail) as [_ [_ [_ [_ H]]]].
    exact (H _ eq_refl eq_refl).
Defined.

(** The rendering of the sample envelopes. *)
Lemma Error_String_cases_witness :
  ErrorDetail Sample.pg_envelope = Ok (Some (ptr_pgerror_Error Sample.dup_key)) /\
  Error_String (T := Sample.taxonomy) Sample.pg_envelope = Ok "duplicate key value" /\
  Error_String (T := Sample.taxonomy) None = Ok "<nil>".
Proof.
  assert (H : ErrorDetail Sample.pg_envelope
              = Ok (Some (ptr_pgerror_Error Sample.dup_key))) by reflexivity.
  split; [exact H |]. split.
  - exact (proj1 (Error_String_cases (T := Sample.taxonomy) Sample.pg_envelope) _ H).
  - exact (proj2 (Error_String_cases (T := Sample.taxonomy) None) eq_refl).
Defined.

(** Classification of an error of no recognisable shape. *)
Lemma NewError_total_witness :
  (GetPGCause (ErrorTaxonomy := Sample.taxonomy) Sample.boom = None /\
   as_UnhandledRetryableError Sample.boom = None) /\
  NewError (T := Sample.taxonomy) Sample.boom =
    Some {| Detail :=
              Some (Error_PGError
                      {| pgerror.Code := "XX000"; pgerror.Message := "boom" |}) |}.
Proof.
  assert (H1 : GetPGCause (ErrorTaxonomy := Sample.taxonomy) Sample.boom = None)
    by reflexivity.
  assert (H2 : as_UnhandledRetryableError Sample.boom = None) by reflexivity.
  split; [split; assumption |].
  exact (proj2 (NewError_total (T := Sample.taxonomy) Sample.boom) H1 H2).
Defined.

(** Classification of an error that has both shapes, of a retryable error
    without a cause, and of an error of neither shape. *)
Lemma NewError_priority_witness :
  (GetPGCause (ErrorTaxonomy := Sample.taxonomy) Sample.retry_both = Some Sample.dup_key /\
   as_UnhandledRetryableError Sample.retry_both = Some Sample.retry_with_cause /\
   NewError (T := Sample.taxonomy) Sample.retry_both = Sample.pg_envelope /\
   ErrorDetail (NewError (T := Sample.taxonomy) Sample.retry_both)
     = Ok (Some (ptr_pgerror_Error Sample.dup_key))) /\
  (GetPGCause (ErrorTaxonomy := Sample.taxonomy) Sample.retry_err = None /\
   as_UnhandledRetryableError Sample.retry_err = Some Sample.retry_plain /\
   NewError (T := Sample.taxonomy) Sample.retry_err = Sample.retry_envelope) /\
  (GetPGCause (ErrorTaxonomy := Sample.taxonomy) Sample.boom = None /\
   as_UnhandledRetryableError Sample.boom = None /\
   NewError (T := Sample.taxonomy) Sample.boom =
     Some {| Detail := Some (Error_PGError (pgerror.NewError "XX000" "boom")) |}).
Proof.
  pose proof (NewError_priority (T := Sample.taxonomy) Sample.retry_both)
    as [Hpg _].
  pose proof (NewError_priority (T := Sample.taxonomy) Sample.retry_err)
    as [_ [_ [Hretry _]]].
  pose proof (NewError_priority (T := Sample.taxonomy) Sample.boom)
    as [_ [_ [_ Hint]]].
  split; [| split].
  - split; [reflexivity |]. split; [reflexivity |].
    exact (Hpg Sample.dup_key eq_refl).
  - split; [reflexivity |]. split; [reflexivity |].
    exact (proj1 (Hretry Sample.retry_plain eq_refl eq_refl)).
  - split; [reflexivity |]. split; [reflexivity |].
    exact (Hint eq_refl eq_refl).
Defined.

(** Scenarios 3, 4 and 5 of the specification. *)
Example Error_String_boom :
  Error_String (NewError (T := Sample.taxonomy) Sample.boom) = Ok "boom".
Proof. reflexivity. Qed.

Example ErrorDetail_retryable :
  ErrorDetail (NewError (T := Sample.taxonomy) Sample.retry_err) = Ok (Some Sample.retry_err).
Proof. reflexivity. Qed.

Example Error_String_nil :
  Error_String (T := Sample.taxonomy) None = Ok "<nil>".
Proof. reflexivity. Qed.

(** A non-nil envelope with a nil detail has no rendering: [String]
    panics with [ErrorDetail]. *)
Example Error_String_nil_detail :
  Error_String (T := Sample.taxonomy) Sample.nil_detail = Panic BadErrorDetail.
Proof. reflexivity. Qed.

(** * Further properties of the ordering codec *)

(** ** Index expressions and loops *)

Lemma index_Ok_inv (m : list Z) (i v : Z) :
  index m i = Ok v -> in_bounds m i /\ nth_error m (Z.to_nat i) = Some v.
Proof.
  unfold index, in_bounds.
  destruct ((0 <=? i) && (i <? Z.of_nat (length m))) eqn:Hb; [| discriminate].
  apply andb_true_iff in Hb. destruct Hb as [H0 H1].
  apply Z.leb_le in H0. apply Z.ltb_lt in H1.
  destruct (nth_error m (Z.to_nat i)) as [v' |]; [| discriminate].
  intros H. injection H as ->. split; [lia | reflexivity].
Qed.

Lemma index_in_bounds (m : list Z) (i : Z) :
  in_bounds m i -> exists v, index m i = Ok v /\ nth_error m (Z.to_nat i) = Some v.
Proof.
  unfold index, in_bounds. intros [H0 H1].
  assert (Hb : (0 <=? i) && (i <? Z.of_nat (length m)) = true).
  { apply andb_true_iff. split; [apply Z.leb_le | apply Z.ltb_lt]; assumption. }
  rewrite Hb.
  destruct (nth_error m (Z.to_nat i)) as [v |] eqn:Hn.
  - exists v. split; reflexivity.
  - apply nth_error_None in Hn. lia.
Qed.

Lemma index_out_of_bounds (m : list Z) (i : Z) :
  ~ in_bounds m i -> index m i = Panic (IndexOutOfRange i (length m)).
Proof.
  unfold index, in_bounds. intros Hout.
  destruct ((0 <=? i) && (i <? Z.of_nat (length m))) eqn:Hb; [| reflexivity].
  apply andb_true_iff in Hb. destruct Hb as [H0 H1].
  apply Z.leb_le in H0. apply Z.ltb_lt in H1. lia.
Qed.

Lemma for_range_Ok_inv {A B : Type} (body : A -> result B) (s : list A) (bs : list B) :
  for_range body s = Ok bs -> Forall2 (fun a b => body a = Ok b) s bs.
Proof.
  revert bs. induction s as [| a s IH]; simpl; intros bs H.
  - injection H as <-. constructor.
  - destruct (body a) as [b | p] eqn:Hb; simpl in H; [| discriminate H].
    destruct (for_range body s) as [bs' | p] eqn:Hbs; simpl in H; [| discriminate H].
    injection H as <-. constructor; [exact Hb | apply IH; reflexivity].
Qed.

Lemma for_range_prefix {A B : Type} (body : A -> result B)
    (pre : list A) (a : A) (post : list A) (p : panic) :
  (forall a', In a' pre -> exists b, body a' = Ok b) ->
  body a = Panic p ->
  for_range body (pre ++ a :: post)%list = Panic p.
Proof.
  intros Hpre Ha. induction pre as [| a' pre IH]; simpl.
  - rewrite Ha. reflexivity.
  - destruct (Hpre a' (or_introl eq_refl)) as [b Hb]. rewrite Hb. simpl.
    rewrite IH; [reflexivity |].
    intros a'' Hin. apply Hpre. right. exact Hin.
Qed.

(** What a column that is emitted looks like. *)
Lemma mappedColumn_Ok_inv (m : option (list Z)) (c : sqlbase.ColumnOrderInfo)
    (w : Ordering_Column) :
  mappedColumn m c = Ok w ->
  exists v,
    w = {| ColIdx := GoInt.to_uint32 v;
           Direction :=
             if encoding.Direction_eqb (sqlbase.Direction c) encoding.Ascending
             then Ordering_Column_ASC
             else Ordering_Column_DESC |} /\
    match m with
    | None => v = sqlbase.ColIdx c
    | Some m' => index m' (sqlbase.ColIdx c) = Ok v /\ v <> -1
    end.
Proof.
  unfold mappedColumn. destruct m as [m' |]; simpl.
  - destruct (index m' (sqlbase.ColIdx c)) as [v | p] eqn:Hv; simpl; [| discriminate].
    destruct (Z.eqb_spec v (-1)) as [E | E]; simpl; [discriminate |].
    intros H. injection H as <-. exists v. repeat split. exact E.
  - intros H. injection H as <-. exists (sqlbase.ColIdx c). split; reflexivity.
Qed.

(** The two ways for a column to panic. *)
Lemma mappedColumn_Panic_inv (m : option (list Z)) (c : sqlbase.ColumnOrderInfo)
    (p : panic) :
  mappedColumn m c = Panic p ->
  exists m', m = Some m' /\
    ((p = ColumnNotAvailable (sqlbase.ColIdx c) /\
      index m' (sqlbase.ColIdx c) = Ok (-1)) \/
     (p = IndexOutOfRange (sqlbase.ColIdx c) (length m') /\
      ~ in_bounds m' (sqlbase.ColIdx c))).
Proof.
  unfold mappedColumn. destruct m as [m' |]; simpl; [| discriminate].
  intros H. exists m'. split; [reflexivity |].
  destruct (index m' (sqlbase.ColIdx c)) as [v | q] eqn:Hv; simpl in H.
  - destruct (Z.eqb_spec v (-1)) as [-> | E]; simpl in H; [| discriminate H].
    injection H as <-. left. split; reflexivity.
  - injection H as <-. right.
    assert (Hout : ~ in_bounds m' (sqlbase.ColIdx c)).
    { intros Hin. destruct (index_in_bounds _ _ Hin) as [v [Hv' _]]. congruence. }
    rewrite (index_out_of_bounds _ _ Hout) in Hv. injection Hv as <-.
    split; [reflexivity | exact Hout].
Qed.

(** Every column that is emitted has a [uint32] index and a declared
    direction. *)
Lemma mappedColumn_canonical (m : option (list Z)) (c : sqlbase.ColumnOrderInfo)
    (w : Ordering_Column) :
  mappedColumn m c = Ok w ->
  GoInt.is_uint32 (ColIdx w) /\
  (Direction w = Ordering_Column_ASC \/ Direction w = Ordering_Column_DESC).
Proof.
  intros H. destruct (mappedColumn_Ok_inv m c w H) as [v [-> _]]. simpl.
  split; [apply GoIntFacts.to_uint32_range |].
  destruct (encoding.Direction_eqb (sqlbase.Direction c) encoding.Ascending);
    [left | right]; reflexivity.
Qed.

(** The closed form of the conversion without a remap. *)
Lemma ConvertToSpecOrdering_closed (o : sqlbase.ColumnOrdering) :
  ConvertToSpecOrdering o =
  Ok {| Columns :=
          map (fun c =>
                 {| ColIdx := GoInt.to_uint32 (sqlbase.ColIdx c);
                    Direction :=
                      if encoding.Direction_eqb (sqlbase.Direction c) encoding.Ascending
                      then Ordering_Column_ASC
                      else Ordering_Column_DESC |}) o |}.
Proof.
  unfold ConvertToSpecOrdering, ConvertToMappedSpecOrdering.
  rewrite for_range_unmapped. reflexivity.
Qed.

(** The closed form of the round trip of an internal ordering. *)
Lemma roundtrip_closed (o : sqlbase.ColumnOrdering) :
  roundtrip o =
  Ok (map (fun c =>
             {| sqlbase.ColIdx := GoInt.to_uint32 (sqlbase.ColIdx c);
                sqlbase.Direction := sqlbase.Direction c |}) o).
Proof.
  unfold roundtrip. rewrite ConvertToSpecOrdering_closed. simpl. f_equal.
  unfold ConvertToColumnOrdering. simpl. rewrite map_map.
  apply map_ext. intros c. simpl.
  rewrite (GoIntFacts.to_int_of_uint32 _ (GoIntFacts.to_uint32_range _)).
  rewrite direction_roundtrip. reflexivity.
Qed.

Lemma for_range_ext_in {A B : Type} (f g : A -> result B) (s : list A) :
  (forall a, In a s -> f a = g a) -> for_range f s = for_range g s.
Proof.
  induction s as [| a s IH]; intros H; simpl; [reflexivity |].
  rewrite (H a (or_introl eq_refl)), IH; [reflexivity |].
  intros a' Ha'. apply H. right. exact Ha'.
Qed.

(** ** Conversion without a remap *)

(** X1. Without a remap the conversion to the wire form never panics,
    whatever the column indices are: it yields one wire column per
    internal column, in order, with the index reduced modulo 2^32 and the
    direction kept. *)
Theorem ConvertToSpecOrdering_never_panics (o : sqlbase.ColumnOrdering) :
  exists s,
    ConvertToSpecOrdering o = Ok s /\
    length (Columns s) = length o /\
    Forall2 encodes o (Columns s).
Proof.
  rewrite ConvertToSpecOrdering_closed. eexists. split; [reflexivity |].
  simpl. split; [apply length_map |].
  induction o as [| c o IH]; simpl; constructor; [| exact IH].
  unfold encodes. simpl. split; [reflexivity |].
  destruct (sqlbase.Direction c); split; intros H;
    try reflexivity; discriminate H.
Qed.

(** The column index -1 goes through when there is no remap. *)
Example ConvertToSpecOrdering_minus_one :
  ConvertToSpecOrdering Cases.minus_one
  = Ok {| Columns := [Sample.wire 4294967295 Ordering_Column_ASC] |}.
Proof. reflexivity. Qed.

(** X2. Whatever the remap, an ordering that the conversion returns is
    canonical (every index a value of [uint32], every direction ASC or
    DESC) and has as many columns as the internal ordering. *)
Theorem emitted_ordering_canonical (o : sqlbase.ColumnOrdering)
    (m : option (list Z)) (s : Ordering) :
  ConvertToMappedSpecOrdering o m = Ok s ->
  canonical_Ordering s /\ length (Columns s) = length o.
Proof.
  unfold ConvertToMappedSpecOrdering, canonical_Ordering.
  destruct (for_range (mappedColumn m) o) as [cols | p] eqn:Hfr; simpl;
    [| discriminate].
  intros H. injection H as <-. simpl.
  apply for_range_Ok_inv in Hfr.
  split; [| symmetry; exact (Forall2_length Hfr)].
  induction Hfr as [| c w o cols Hcw _ IH]; constructor; [| exact IH].
  exact (mappedColumn_canonical m c w Hcw).
Qed.

Lemma emitted_ordering_canonical_witness :
  ConvertToMappedSpecOrdering Sample.two_keys (Some Sample.remap_two)
    = Ok Cases.spec_canonical /\
  canonical_Ordering Cases.spec_canonical /\
  length (Columns Cases.spec_canonical) = length Sample.two_keys.
Proof.
  assert (H : ConvertToMappedSpecOrdering Sample.two_keys (Some Sample.remap_two)
              = Ok Cases.spec_canonical) by reflexivity.
  split; [exact H | exact (emitted_ordering_canonical _ _ _ H)].
Defined.

(** X3. A wire ordering survives the round trip through the internal form
    exactly when it is canonical: an index outside [uint32] or a direction
    other than ASC and DESC does not come back. *)
Theorem roundtrip_wire_identity_iff (s : Ordering) :
  roundtrip_wire s = Ok s <-> canonical_Ordering s.
Proof.
  unfold roundtrip_wire, canonical_Ordering.
  rewrite ConvertToSpecOrdering_closed.
  destruct s as [cols]. unfold ConvertToColumnOrdering. simpl. rewrite map_map.
  split.
  - intros H. injection H as H.
    induction cols as [| [i d] cols IH]; constructor.
    + simpl in *. injection H as Hi Hd _. split.
      * apply GoIntFacts.to_uint32_fixed.
        rewrite <- Hi at 2. f_equal.
        rewrite <- Hi. symmetry.
        apply GoIntFacts.to_int_of_uint32, GoIntFacts.to_uint32_range.
      * destruct (d =? Ordering_Column_ASC); simpl in Hd;
          [left | right]; symmetry; exact Hd.
    + apply IH. simpl in H. injection H as _ _ H. exact H.
  - intros Hc. f_equal. f_equal.
    rewrite <- (map_id cols) at 2. apply map_ext_in.
    intros [i d] Hin. simpl.
    rewrite Forall_forall in Hc. destruct (Hc _ Hin) as [Hi Hd]. simpl in Hi, Hd.
    rewrite (GoIntFacts.to_int_of_uint32 i Hi), (GoIntFacts.to_uint32_small i Hi).
    destruct Hd as [-> | ->]; reflexivity.
Qed.

Lemma roundtrip_wire_identity_iff_witness :
  canonical_Ordering Cases.spec_canonical /\
  roundtrip_wire Cases.spec_canonical = Ok Cases.spec_canonical.
Proof.
  assert (H : canonical_Ordering Cases.spec_canonical).
  { repeat constructor; simpl; lia. }
  split; [exact H | exact (proj2 (roundtrip_wire_identity_iff _) H)].
Defined.

(** An unrecognised direction comes back as DESC. *)
Example roundtrip_wire_unknown_direction :
  roundtrip_wire Sample.spec_two
  = Ok {| Columns := [Sample.wire 0 Ordering_Column_ASC;
                      Sample.wire 4294967295 Ordering_Column_DESC] |}.
Proof. reflexivity. Qed.

(** X4. The round trip of an internal ordering is idempotent: whatever
    the ordering, what comes back from one round trip comes back unchanged
    from the next. *)
Theorem roundtrip_idempotent (o : sqlbase.ColumnOrdering) :
  exists o', roundtrip o = Ok o' /\ roundtrip o' = Ok o'.
Proof.
  rewrite roundtrip_closed. eexists. split; [reflexivity |].
  rewrite roundtrip_closed, map_map.
  apply (f_equal Ok). apply map_ext. intros c. simpl.
  rewrite (GoIntFacts.to_uint32_small _ (GoIntFacts.to_uint32_range _)).
  reflexivity.
Qed.

(** The converse of the round trip on two sort keys. *)
Lemma roundtrip_identity_only_uint32_witness :
  roundtrip Sample.two_keys = Ok Sample.two_keys /\
  Forall (fun c => GoInt.is_uint32 (sqlbase.ColIdx c)) Sample.two_keys.
Proof.
  assert (H : roundtrip Sample.two_keys = Ok Sample.two_keys) by reflexivity.
  split; [exact H | exact (roundtrip_identity_only_uint32 _ H)].
Defined.

(** ** Conversion through a remap *)

(** X5. The panic of a conversion is that of the first column that fails:
    when the columns before [c] are emitted and [c] panics, the conversion
    panics as [c] does, whatever the columns after [c] are. *)
Theorem first_panic_wins (pre : list sqlbase.ColumnOrderInfo)
    (c : sqlbase.ColumnOrderInfo) (post : list sqlbase.ColumnOrderInfo)
    (m : option (list Z)) (p : panic) :
  (forall c', In c' pre -> exists w, mappedColumn m c' = Ok w) ->
  mappedColumn m c = Panic p ->
  ConvertToMappedSpecOrdering (pre ++ c :: post)%list m = Panic p.
Proof.
  intros Hpre Hc. unfold ConvertToMappedSpecOrdering.
  rewrite (for_range_prefix _ pre c post p Hpre Hc). reflexivity.
Qed.

(** On three keys of which the second is outside the remap and the third
    not available in it, the panic is that of the second. *)
Lemma first_panic_wins_witness :
  (forall c', In c' [Sample.col 0 encoding.Ascending] ->
     exists w, mappedColumn (Some Sample.remap_missing) c' = Ok w) /\
  mappedColumn (Some Sample.remap_missing) (Sample.col 7 encoding.Descending)
    = Panic (IndexOutOfRange 7 2) /\
  mappedColumn (Some Sample.remap_missing) (Sample.col 1 encoding.Ascending)
    = Panic (ColumnNotAvailable 1) /\
  ConvertToMappedSpecOrdering Cases.three_keys (Some Sample.remap_missing)
    = Panic (IndexOutOfRange 7 2).
Proof.
  assert (H1 : forall c', In c' [Sample.col 0 encoding.Ascending] ->
     exists w, mappedColumn (Some Sample.remap_missing) c' = Ok w).
  { intros c' [<- | []]. eexists. reflexivity. }
  assert (H2 : mappedColumn (Some Sample.remap_missing)
                 (Sample.col 7 encoding.Descending)
               = Panic (IndexOutOfRange 7 2)) by reflexivity.
  split; [exact H1 |]. split; [exact H2 |]. split; [reflexivity |].
  exact (first_panic_wins [Sample.col 0 encoding.Ascending]
           (Sample.col 7 encoding.Descending)
           [Sample.col 1 encoding.Ascending]
           (Some Sample.remap_missing) _ H1 H2).
Defined.

(** X6. With a remap the conversion succeeds exactly when the index of
    every column is within the bounds of the remap and the remap is not -1
    there. *)
Theorem mapped_succeeds_iff (o : sqlbase.ColumnOrdering) (m : list Z) :
  (exists s, ConvertToMappedSpecOrdering o (Some m) = Ok s) <->
  (forall c, In c o ->
     in_bounds m (sqlbase.ColIdx c) /\
     nth_error m (Z.to_nat (sqlbase.ColIdx c)) <> Some (-1)).
Proof.
  split.
  - intros [s Hs] c Hc.
    destruct (mappedColumn (Some m) c) as [w | p] eqn:Hw.
    + destruct (mappedColumn_Ok_inv _ _ _ Hw) as [v [_ [Hv Hne]]].
      destruct (index_Ok_inv _ _ _ Hv) as [Hb Hn].
      split; [exact Hb |]. rewrite Hn. intros E. injection E as E. contradiction.
    + destruct (for_range_In_Panic (mappedColumn (Some m)) o) as [q Hq].
      { exists c, p. split; assumption. }
      unfold ConvertToMappedSpecOrdering in Hs. rewrite Hq in Hs. discriminate Hs.
  - intros Hall.
    destruct (mapped_success o m) as [cols [Hcols _]].
    { intros c Hc. destruct (Hall c Hc) as [Hb Hne].
      destruct (index_in_bounds _ _ Hb) as [v [Hv Hn]].
      exists v. split; [exact Hv |]. intros ->. contradiction. }
    eexists. exact Hcols.
Qed.

Lemma mapped_succeeds_iff_witness :
  (forall c, In c Sample.two_keys ->
     in_bounds Sample.remap_two (sqlbase.ColIdx c) /\
     nth_error Sample.remap_two (Z.to_nat (sqlbase.ColIdx c)) <> Some (-1)) /\
  (exists s, ConvertToMappedSpecOrdering Sample.two_keys (Some Sample.remap_two) = Ok s).
Proof.
  assert (H : forall c, In c Sample.two_keys ->
     in_bounds Sample.remap_two (sqlbase.ColIdx c) /\
     nth_error Sample.remap_two (Z.to_nat (sqlbase.ColIdx c)) <> Some (-1)).
  { intros c [<- | [<- | []]]; (split; [unfold in_bounds; simpl; lia | discriminate]). }
  split; [exact H | exact (proj2 (mapped_succeeds_iff _ _) H)].
Defined.

(** X7. An empty remap is a remap, not the absence of one: the empty
    ordering converts to the empty specification under every remap, but a
    non-empty ordering panics at its first column under the empty remap,
    while it converts under the nil remap. *)
Theorem empty_remap_is_not_nil (c : sqlbase.ColumnOrderInfo) (o : sqlbase.ColumnOrdering) :
  (forall m, ConvertToMappedSpecOrdering [] m = Ok {| Columns := [] |}) /\
  ConvertToMappedSpecOrdering (c :: o) (Some [])
    = Panic (IndexOutOfRange (sqlbase.ColIdx c) 0) /\
  (exists s, ConvertToMappedSpecOrdering (c :: o) None = Ok s).
Proof.
  split; [intros m; reflexivity |]. split.
  - unfold ConvertToMappedSpecOrdering. simpl. unfold mappedColumn.
    rewrite index_out_of_bounds; [reflexivity |].
    unfold in_bounds. simpl. lia.
  - rewrite (ConvertToSpecOrdering_closed (c :: o) : ConvertToMappedSpecOrdering (c :: o) None = _).
    eexists. reflexivity.
Qed.

(** X8. A conversion through a remap is the conversion without a remap of
    the remapped ordering: when it succeeds, there is an internal ordering
    with the remapped indices and the same directions whose plain
    conversion gives the same specification. *)
Theorem mapped_factors_through_remap (o : sqlbase.ColumnOrdering) (m : list Z)
    (s : Ordering) :
  ConvertToMappedSpecOrdering o (Some m) = Ok s ->
  exists o', Forall2 (remapped m) o o' /\ ConvertToSpecOrdering o' = Ok s.
Proof.
  unfold ConvertToMappedSpecOrdering.
  destruct (for_range (mappedColumn (Some m)) o) as [cols | p] eqn:Hfr; simpl;
    [| discriminate].
  intros H. injection H as <-.
  apply for_range_Ok_inv in Hfr.
  assert (Hex : exists o', Forall2 (remapped m) o o' /\
            map (fun c =>
                   {| ColIdx := GoInt.to_uint32 (sqlbase.ColIdx c);
                      Direction :=
                        if encoding.Direction_eqb (sqlbase.Direction c) encoding.Ascending
                        then Ordering_Column_ASC
                        else Ordering_Column_DESC |}) o' = cols).
  { induction Hfr as [| c w o cols Hcw _ [o' [HF Hmap]]].
    - exists []. split; [constructor | reflexivity].
    - destruct (mappedColumn_Ok_inv _ _ _ Hcw) as [v [-> [Hv _]]].
      exists ({| sqlbase.ColIdx := v; sqlbase.Direction := sqlbase.Direction c |} :: o').
      split.
      + constructor; [| exact HF]. split; [exact Hv | reflexivity].
      + simpl. rewrite Hmap. reflexivity. }
  destruct Hex as [o' [HF Hmap]]. exists o'. split; [exact HF |].
  rewrite ConvertToSpecOrdering_closed, Hmap. reflexivity.
Qed.

Lemma mapped_factors_through_remap_witness :
  ConvertToMappedSpecOrdering Sample.two_keys (Some Sample.remap_two)
    = Ok Cases.spec_canonical /\
  (exists o', Forall2 (remapped Sample.remap_two) Sample.two_keys o' /\
              ConvertToSpecOrdering o' = Ok Cases.spec_canonical).
Proof.
  assert (H : ConvertToMappedSpecOrdering Sample.two_keys (Some Sample.remap_two)
              = Ok Cases.spec_canonical) by reflexivity.
  split; [exact H | exact (mapped_factors_through_remap _ _ _ H)].
Defined.

(** X9. A remap that is the identity on the columns of an ordering changes
    nothing: the conversion through it is the conversion without a
    remap. *)
Theorem identity_remap (o : sqlbase.ColumnOrdering) (m : list Z) :
  (forall c, In c o -> index m (sqlbase.ColIdx c) = Ok (sqlbase.ColIdx c)) ->
  ConvertToMappedSpecOrdering o (Some m) = ConvertToSpecOrdering o.
Proof.
  intros Hid. unfold ConvertToSpecOrdering, ConvertToMappedSpecOrdering.
  rewrite (for_range_ext_in (mappedColumn (Some m)) (mappedColumn None) o);
    [reflexivity |].
  intros c Hc. unfold mappedColumn. rewrite (Hid c Hc). simpl.
  destruct (index_Ok_inv _ _ _ (Hid c Hc)) as [[H0 _] _].
  destruct (Z.eqb_spec (sqlbase.ColIdx c) (-1)) as [E | _]; [lia | reflexivity].
Qed.

Lemma identity_remap_witness :
  (forall c, In c Sample.two_keys ->
     index Cases.remap_id (sqlbase.ColIdx c) = Ok (sqlbase.ColIdx c)) /\
  ConvertToMappedSpecOrdering Sample.two_keys (Some Cases.remap_id)
    = ConvertToSpecOrdering Sample.two_keys.
Proof.
  assert (H : forall c, In c Sample.two_keys ->
     index Cases.remap_id (sqlbase.ColIdx c) = Ok (sqlbase.ColIdx c)).
  { intros c [<- | [<- | []]]; reflexivity. }
  split; [exact H | exact (identity_remap _ _ H)].
Defined.

(** X10. A conversion panics only through a remap, and then for a column
    of the ordering in one of two ways: [ColumnNotAvailable] with the index
    of a column at which the remap is -1, or [IndexOutOfRange] with the
    index of a column outside the bounds of the remap and the length of
    the remap. *)
Theorem panic_origin (o : sqlbase.ColumnOrdering) (m : option (list Z)) (p : panic) :
  ConvertToMappedSpecOrdering o m = Panic p ->
  exists m' c,
    m = Some m' /\ In c o /\
    ((p = ColumnNotAvailable (sqlbase.ColIdx c) /\
      index m' (sqlbase.ColIdx c) = Ok (-1)) \/
     (p = IndexOutOfRange (sqlbase.ColIdx c) (length m') /\
      ~ in_bounds m' (sqlbase.ColIdx c))).
Proof.
  unfold ConvertToMappedSpecOrdering.
  destruct (for_range (mappedColumn m) o) as [cols | q] eqn:Hfr; simpl;
    [discriminate |].
  intros H. injection H as ->.
  destruct (for_range_Panic _ _ _ Hfr) as [c [Hc Hp]].
  destruct (mappedColumn_Panic_inv _ _ _ Hp) as [m' [Hm Hcases]].
  exists m', c. repeat split; assumption.
Qed.

Lemma panic_origin_witness :
  ConvertToMappedSpecOrdering Cases.three_keys (Some Sample.remap_missing)
    = Panic (IndexOutOfRange 7 2) /\
  (exists m' c,
     Some Sample.remap_missing = Some m' /\ In c Cases.three_keys /\
     ((IndexOutOfRange 7 2 = ColumnNotAvailable (sqlbase.ColIdx c) /\
       index m' (sqlbase.ColIdx c) = Ok (-1)) \/
      (IndexOutOfRange 7 2 = IndexOutOfRange (sqlbase.ColIdx c) (length m') /\
       ~ in_bounds m' (sqlbase.ColIdx c)))).
Proof.
  assert (H : ConvertToMappedSpecOrdering Cases.three_keys (Some Sample.remap_missing)
              = Panic (IndexOutOfRange 7 2)) by reflexivity.
  split; [exact H | exact (panic_origin _ _ _ H)].
Defined.

(** * Further properties of the envelopes *)

Section ExpressionRendering.

Context {P : tree.Pkg}.

(** X11. An empty expression renders as [none]; an expression that is not
    empty renders as its formatted local form when it has one, and as its
    non-empty textual form otherwise. *)
Theorem Expression_Empty_String (e : Expression) :
  (Expression_Empty e = true -> Expression_String e = "none") /\
  (Expression_Empty e = false ->
   (exists l, LocalExpr e = Some l /\
              Expression_String e = tree.Format tree.FmtCheckEquivalence l) \/
   (LocalExpr e = None /\ Expr e <> EmptyString /\ Expression_String e = Expr e)).
Proof.
  unfold Expression_Empty, Expression_String.
  destruct (LocalExpr e) as [l |]; simpl.
  - rewrite andb_false_r. split; [discriminate |].
    intros _. left. exists l. split; reflexivity.
  - rewrite andb_true_r.
    destruct (String.eqb_spec (Expr e) EmptyString) as [E | E]; simpl.
    + split; [reflexivity | discriminate].
    + split; [discriminate |]. intros _. right. repeat split. exact E.
Qed.

(** X12. Without a local form the rendering is never the empty string. *)
Theorem Expression_String_not_empty (e : Expression) :
  LocalExpr e = None -> Expression_String e <> EmptyString.
Proof.
  unfold Expression_String. intros ->.
  destruct (String.eqb_spec (Expr e) EmptyString) as [E | E]; simpl.
  - discriminate.
  - exact E.
Qed.

End ExpressionRendering.

Lemma Expression_Empty_String_witness :
  Expression_Empty Sample.neither = true /\
  Expression_String Sample.neither = "none" /\
  Expression_Empty Sample.textual = false /\
  ((exists l, LocalExpr Sample.textual = Some l /\
              Expression_String Sample.textual = tree.Format tree.FmtCheckEquivalence l) \/
   (LocalExpr Sample.textual = None /\ Expr Sample.textual <> EmptyString /\
    Expression_String Sample.textual = Expr Sample.textual)).
Proof.
  assert (H1 : Expression_Empty Sample.neither = true) by reflexivity.
  assert (H2 : Expression_Empty Sample.textual = false) by reflexivity.
  split; [exact H1 |].
  split; [exact (proj1 (Expression_Empty_String Sample.neither) H1) |].
  split; [exact H2 | exact (proj2 (Expression_Empty_String Sample.textual) H2)].
Defined.

Lemma Expression_String_not_empty_witness :
  LocalExpr Sample.textual = None /\
  Expression_String Sample.textual <> EmptyString.
Proof.
  assert (H : LocalExpr Sample.textual = None) by reflexivity.
  split; [exact H | exact (Expression_String_not_empty Sample.textual H)].
Defined.

Section ErrorRelay.

Context {K : ErrorKinds} {T : ErrorTaxonomy}.

(** X13. An envelope of the retryable kind comes only from an error that
    is of the retryable type and has no database-error cause: no other
    error is ever classified as retryable. *)
Theorem retryable_only_from_retryable (err : error) (env : Error)
    (r : UnhandledRetryableError) :
  NewError err = Some env ->
  Detail env = Some (Error_RetryableTxnError r) ->
  err = ptr_UnhandledRetryableError r /\ GetPGCause err = None.
Proof.
  unfold NewError.
  destruct (GetPGCause err) as [pg |] eqn:Hpg.
  - intros H. injection H as <-. simpl. discriminate.
  - destruct err as [e | e | e]; simpl; intros H; injection H as <-; simpl;
      intros Hd; try discriminate Hd.
    injection Hd as ->. split; reflexivity.
Qed.

(** X14. Classifying an error a second time changes nothing: when a
    database error is its own cause for [GetPGCause], the error that
    [ErrorDetail] returns for the envelope of [err] is classified to the
    same envelope. *)
Theorem reclassify_stable (err : error) :
  (forall pg, GetPGCause (ptr_pgerror_Error pg) = Some pg) ->
  exists d,
    ErrorDetail (NewError err) = Ok (Some d) /\
    NewError d = NewError err.
Proof.
  intros Hself. unfold NewError at 1 3.
  destruct (GetPGCause err) as [pg |] eqn:Hpg.
  - exists (ptr_pgerror_Error pg). split; [reflexivity |].
    unfold NewError. rewrite Hself. reflexivity.
  - destruct err as [e | e | e]; simpl.
    + exists (ptr_pgerror_Error (pgerror.NewError CodeInternalError
                                   (Error_method (ptr_pgerror_Error e)))).
      split; [reflexivity |]. unfold NewError. rewrite Hself. reflexivity.
    + exists (ptr_UnhandledRetryableError e). split; [reflexivity |].
      unfold NewError. rewrite Hpg. reflexivity.
    + exists (ptr_pgerror_Error (pgerror.NewError CodeInternalError
                                   (Error_method (other_error e)))).
      split; [reflexivity |]. unfold NewError. rewrite Hself. reflexivity.
Qed.

(** X15. Decoding an envelope and classifying the result gives the
    envelope back, when a database error is its own cause for
    [GetPGCause] and the retryable error of the envelope has no
    database-error cause. *)
Theorem NewError_of_ErrorDetail (env : Error) (d : error) :
  (forall pg, GetPGCause (ptr_pgerror_Error pg) = Some pg) ->
  (forall r, Detail env = Some (Error_RetryableTxnError r) ->
             GetPGCause (ptr_UnhandledRetryableError r) = None) ->
  ErrorDetail (Some env) = Ok (Some d) ->
  NewError d = Some env.
Proof.
  intros Hself Hretry. destruct env as [[[t | t | x] |]]; simpl in *;
    intros H; try discriminate H; injection H as <-; unfold NewError.
  - rewrite Hself. reflexivity.
  - rewrite (Hretry t eq_refl). reflexivity.
Qed.

(** X16. Rendering the envelope of an error never panics: when the
    message of a database error is its [Message], the rendering is the
    message of the database-error cause when the error has one, and the
    message of the error itself otherwise. *)
Theorem classified_renders (err : error) :
  (forall pg, Error_method (ptr_pgerror_Error pg) = pgerror.Message pg) ->
  Error_String (NewError err) =
  Ok (match GetPGCause err with
      | Some pg => pgerror.Message pg
      | None => Error_method err
      end).
Proof.
  intros Hmsg. unfold NewError.
  destruct (GetPGCause err) as [pg |] eqn:Hpg.
  - unfold Error_String. simpl. rewrite Hmsg. reflexivity.
  - destruct err as [e | e | e]; unfold Error_String; simpl;
      try rewrite Hmsg; reflexivity.
Qed.


End ErrorRelay.

(** The sample world satisfies both laws used above. *)
Lemma sample_pg_is_own_cause (pg : pgerror.Error) :
  GetPGCause (ErrorTaxonomy := Sample.taxonomy) (ptr_pgerror_Error pg) = Some pg.
Proof. reflexivity. Qed.

Lemma sample_pg_message (pg : pgerror.Error) :
  Error_method (ErrorTaxonomy := Sample.taxonomy) (ptr_pgerror_Error pg)
  = pgerror.Message pg.
Proof. reflexivity. Qed.

Lemma retryable_only_from_retryable_witness :
  NewError (T := Sample.taxonomy) Sample.retry_err
    = Some {| Detail := Some (Error_RetryableTxnError Sample.retry_plain) |} /\
  Sample.retry_err = ptr_UnhandledRetryableError Sample.retry_plain /\
  GetPGCause (ErrorTaxonomy := Sample.taxonomy) Sample.retry_err = None.
Proof.
  assert (H : NewError (T := Sample.taxonomy) Sample.retry_err
    = Some {| Detail := Some (Error_RetryableTxnError Sample.retry_plain) |})
    by reflexivity.
  split; [exact H |].
  exact (retryable_only_from_retryable (T := Sample.taxonomy) _ _ _ H eq_refl).
Defined.

(** An error of both shapes, relayed twice. *)
Lemma reclassify_stable_witness :
  (forall pg, GetPGCause (ErrorTaxonomy := Sample.taxonomy) (ptr_pgerror_Error pg)
              = Some pg) /\
  (exists d,
     ErrorDetail (NewError (T := Sample.taxonomy) Sample.retry_both) = Ok (Some d) /\
     NewError (T := Sample.taxonomy) d
       = NewError (T := Sample.taxonomy) Sample.retry_both).
Proof.
  split; [exact sample_pg_is_own_cause |].
  exact (reclassify_stable (T := Sample.taxonomy) Sample.retry_both
           sample_pg_is_own_cause).
Defined.

Lemma NewError_of_ErrorDetail_witness :
  ErrorDetail (Some {| Detail := Some (Error_RetryableTxnError Sample.retry_plain) |})
    = Ok (Some Sample.retry_err) /\
  NewError (T := Sample.taxonomy) Sample.retry_err
    = Some {| Detail := Some (Error_RetryableTxnError Sample.retry_plain) |}.
Proof.
  assert (H : ErrorDetail
                (Some {| Detail := Some (Error_RetryableTxnError Sample.retry_plain) |})
              = Ok (Some Sample.retry_err)) by reflexivity.
  split; [exact H |].
  apply (NewError_of_ErrorDetail (T := Sample.taxonomy) _ _ sample_pg_is_own_cause);
    [| exact H].
  intros r Hr. injection Hr as <-. reflexivity.
Defined.

Lemma classified_renders_witness :
  (forall pg, Error_method (ErrorTaxonomy := Sample.taxonomy) (ptr_pgerror_Error pg)
              = pgerror.Message pg) /\
  Error_String (NewError (T := Sample.taxonomy) Sample.boom) = Ok "boom" /\
  Error_String (NewError (T := Sample.taxonomy) Sample.retry_both)
    = Ok "duplicate key value".
Proof.
  split; [exact sample_pg_message |]. split.
  - exact (classified_renders (T := Sample.taxonomy) Sample.boom sample_pg_message).
  - exact (classified_renders (T := Sample.taxonomy) Sample.retry_both
             sample_pg_message).
Defined.


(** * The wire form determines the ordering *)

Lemma roundtrip_uint32 (o : sqlbase.ColumnOrdering) :
  Forall (fun c => GoInt.is_uint32 (sqlbase.ColIdx c)) o ->
  map (fun c =>
         {| sqlbase.ColIdx := GoInt.to_uint32 (sqlbase.ColIdx c);
            sqlbase.Direction := sqlbase.Direction c |}) o = o.
Proof.
  intros Hwf. rewrite <- (map_id o) at 2. apply map_ext_in.
  intros [i d] Hin. simpl. rewrite Forall_forall in Hwf.
  rewrite (GoIntFacts.to_uint32_small i (Hwf _ Hin)). reflexivity.
Qed.

(** X19. Two internal orderings whose column indices are values of
    [uint32] and that have the same wire form are the same ordering. *)
Theorem ConvertToSpecOrdering_injective (o1 o2 : sqlbase.ColumnOrdering) :
  Forall (fun c => GoInt.is_uint32 (sqlbase.ColIdx c)) o1 ->
  Forall (fun c => GoInt.is_uint32 (sqlbase.ColIdx c)) o2 ->
  ConvertToSpecOrdering o1 = ConvertToSpecOrdering o2 ->
  o1 = o2.
Proof.
  intros H1 H2 Heq.
  assert (Hrt : roundtrip o1 = roundtrip o2).
  { unfold roundtrip. rewrite Heq. reflexivity. }
  rewrite !roundtrip_closed in Hrt. injection Hrt as Hrt.
  rewrite (roundtrip_uint32 o1 H1), (roundtrip_uint32 o2 H2) in Hrt.
  exact Hrt.
Qed.

Lemma ConvertToSpecOrdering_injective_witness :
  Forall (fun c => GoInt.is_uint32 (sqlbase.ColIdx c)) Sample.two_keys /\
  ConvertToSpecOrdering Sample.two_keys
    = ConvertToSpecOrdering [Sample.col 1 encoding.Descending;
                             Sample.col 0 encoding.Ascending] /\
  Sample.two_keys = [Sample.col 1 encoding.Descending; Sample.col 0 encoding.Ascending].
Proof.
  assert (H : Forall (fun c => GoInt.is_uint32 (sqlbase.ColIdx c)) Sample.two_keys).
  { repeat constructor; simpl; lia. }
  split; [exact H |]. split; [reflexivity |].
  exact (ConvertToSpecOrdering_injective Sample.two_keys
           [Sample.col 1 encoding.Descending; Sample.col 0 encoding.Ascending]
           H H eq_refl).
Defined.

(** Outside [uint32] the wire form does not determine the ordering. *)
Example ConvertToSpecOrdering_collision :
  ConvertToSpecOrdering Sample.wide = ConvertToSpecOrdering Sample.first_asc /\
  Sample.wide <> Sample.first_asc.
Proof. split; [reflexivity | discriminate]. Qed.
